(** * check_project.py: header hygiene check of a JUCE source tree

    A shallow embedding of [src/check_project.py] and the properties of
    its result.

    Python text is modelled as [string], the sequence of the bytes of its
    UTF-8 encoding: every pattern the script searches for is ASCII, so a
    match on the bytes is a match on the code points and conversely.

    The file system is read, never written, by the script; it is a record
    of the three queries the script makes.  An exception is a value of
    [outcome], threaded by a small error monad.  Standard output is the
    text written so far, threaded through the entry point, with a device
    that may refuse a write. *)

From Stdlib Require Import String Ascii List Bool Arith Lia Permutation.
Import ListNotations.

Local Open Scope list_scope.
Local Open Scope string_scope.

(** ** Python strings *)

Module Str.

(** [needle in hay]: does [needle] occur at some position of [hay]. *)
Fixpoint contains (needle hay : string) : bool :=
  prefix needle hay ||
  match hay with
  | EmptyString => false
  | String _ rest => contains needle rest
  end.

(** [s.endswith(suffix)]. *)
Fixpoint endswith (suffix s : string) : bool :=
  String.eqb s suffix ||
  match s with
  | EmptyString => false
  | String _ rest => endswith suffix rest
  end.

(** The scan of [str.replace] for a non-empty [old]: left to right, at each
    position where [old] starts the occurrence is replaced by [new] and the
    scan resumes after it ([skip] counts the characters of the occurrence
    still to pass over), so the occurrences replaced do not overlap. *)
Fixpoint replace_scan (old new : string) (skip : nat) (s : string) : string :=
  match s with
  | EmptyString => EmptyString
  | String c rest =>
      match skip with
      | S k => replace_scan old new k rest
      | O =>
          if prefix old (String c rest)
          then new ++ replace_scan old new (String.length old - 1) rest
          else String c (replace_scan old new 0 rest)
      end
  end.

(** For the empty [old], Python puts [new] before every character and at
    the end. *)
Fixpoint replace_empty (new s : string) : string :=
  match s with
  | EmptyString => new
  | String c rest => new ++ String c (replace_empty new rest)
  end.

(** [s.replace(old, new)], without a count: every occurrence. *)
Definition replace (old new s : string) : string :=
  match old with
  | EmptyString => replace_empty new s
  | String _ _ => replace_scan old new 0 s
  end.

(** [s.replace(old, new, 1)]: the first occurrence only.  This is the
    transform the specification describes in words; the script does not
    call it. *)
Fixpoint replace_first (old new s : string) : string :=
  if prefix old s
  then new ++ substring (String.length old) (String.length s - String.length old) s
  else
    match s with
    | EmptyString => EmptyString
    | String c rest => String c (replace_first old new rest)
    end.

End Str.

(** ** Exceptions and the file system *)

(** The exceptions [open] and [read] raise on a header, and those a write
    to standard output raises. *)
Inductive exception : Type :=
  | FileNotFoundError
  | PermissionError
  | IsADirectoryError
  | UnicodeDecodeError
  | UnicodeEncodeError
  | BrokenPipeError.

(** The result of running a piece of the script. *)
Inductive outcome (A : Type) : Type :=
  | Returned (a : A)
  | Raised (e : exception).

Arguments Returned {A} a.
Arguments Raised {A} e.

Definition ret {A : Type} (a : A) : outcome A := Returned a.

Definition bind {A B : Type} (m : outcome A) (k : A -> outcome B) : outcome B :=
  match m with
  | Returned a => k a
  | Raised e => Raised e
  end.

Declare Scope py_scope.
Delimit Scope py_scope with py.
Notation "x <- m ;; k" := (bind m (fun x => k))
  (at level 61, m at next level, right associativity) : py_scope.
Local Open Scope py_scope.

(** [for x in xs: body]: the loop state [s] is threaded through the
    iterations; an exception in an iteration ends the loop with it. *)
Fixpoint for_each {A S : Type} (xs : list A) (body : A -> S -> outcome S) (s : S)
  : outcome S :=
  match xs with
  | [] => ret s
  | x :: xs' => s' <- body x s ;; for_each xs' body s'
  end.

(** What the script asks of the file system, fixed during a run:
    - [glob pattern]: the result of [glob.glob(pattern, recursive=True)],
      in the order of the traversal;
    - [path_exists path]: [os.path.exists(path)], which does not raise;
    - [read_text path]: [open(path, 'r')] followed by [f.read()], the
      decoded text or the exception of either call. *)
Record filesystem : Type := {
  glob : string -> list string;
  path_exists : string -> bool;
  read_text : string -> outcome string
}.

(** ** The script *)

Definition newline : string := String (ascii_of_nat 10) EmptyString.

(** U+26A0 U+FE0F in UTF-8, then two spaces. *)
Definition warning_prefix : string :=
  String (ascii_of_nat 226) (String (ascii_of_nat 154) (String (ascii_of_nat 160)
  (String (ascii_of_nat 239) (String (ascii_of_nat 184) (String (ascii_of_nat 143)
  "  "))))).

Definition headers_pattern : string := "src/**/*.h".

Definition juce_include : string := "#include <JuceHeader.h>".

(** [cpp_file = header.replace('.h', '.cpp')] *)
Definition cpp_file (header : string) : string :=
  Str.replace ".h" ".cpp" header.

(** [f"Missing implementation: {header}"] *)
Definition missing_implementation (header : string) : string :=
  "Missing implementation: " ++ header.

(** [f"Missing JuceHeader.h in: {header}"] *)
Definition missing_include (header : string) : string :=
  "Missing JuceHeader.h in: " ++ header.

(** Body of the first loop. *)
Definition check_implementation (fs : filesystem) (header : string)
  (issues : list string) : outcome (list string) :=
  let cpp := cpp_file header in
  if negb (path_exists fs cpp)
  then ret (issues ++ [missing_implementation header])%list
  else ret issues.

(** Body of the second loop. *)
Definition check_include (fs : filesystem) (header : string)
  (issues : list string) : outcome (list string) :=
  content <- read_text fs header ;;
  if negb (Str.contains juce_include content)
  then ret (issues ++ [missing_include header])%list
  else ret issues.

Definition check_project (fs : filesystem) : outcome (list string) :=
  let issues := [] in
  let headers := glob fs headers_pattern in
  issues <- for_each headers (check_implementation fs) issues ;;
  issues <- for_each headers (check_include fs) issues ;;
  ret issues.

(** Standard output, as the script meets it: given the text written so far
    and the text of a write, the exception the write raises, if any (the
    text cannot be encoded, the pipe is closed). *)
Definition stdout_device : Type := string -> string -> option exception.

(** A piece of the entry point: it runs on the text written so far and
    gives the text written after it and its result.  What was written
    before an exception stays written. *)
Definition io (A : Type) : Type := string -> string * outcome A.

Definition io_ret {A : Type} (a : A) : io A :=
  fun stdout => (stdout, Returned a).

Definition io_bind {A B : Type} (m : io A) (k : A -> io B) : io B :=
  fun stdout =>
    match m stdout with
    | (stdout', Returned a) => k a stdout'
    | (stdout', Raised e) => (stdout', Raised e)
    end.

(** A call that writes nothing. *)
Definition io_call {A : Type} (o : outcome A) : io A :=
  fun stdout => (stdout, o).

(** [for x in xs: body] in the entry point. *)
Fixpoint io_for_each {A : Type} (xs : list A) (body : A -> io unit) : io unit :=
  match xs with
  | [] => io_ret tt
  | x :: xs' => io_bind (body x) (fun _ => io_for_each xs' body)
  end.

(** [sys.stdout.write(text)]: the text is appended, or the write raises and
    nothing of the text is written. *)
Definition write (dev : stdout_device) (text : string) : io unit :=
  fun stdout =>
    match dev stdout text with
    | None => (stdout ++ text, Returned tt)
    | Some e => (stdout, Raised e)
    end.

(** [print(s)]: a write of [s], then a write of the line end. *)
Definition print (dev : stdout_device) (s : string) : io unit :=
  io_bind (write dev s) (fun _ => write dev newline).

(** The entry point: what is written to standard output, and how the run
    ends. *)
Definition main (dev : stdout_device) (fs : filesystem) : string * outcome unit :=
  io_bind (io_call (check_project fs))
    (fun problems =>
       io_for_each problems (fun problem => print dev (warning_prefix ++ problem)))
    EmptyString.

(** ** The two passes, in closed form *)

(** The issues of the first pass over [headers]. *)
Definition implementation_issues (fs : filesystem) (headers : list string)
  : list string :=
  map missing_implementation
    (filter (fun header => negb (path_exists fs (cpp_file header))) headers).

(** A header that is read and whose text lacks the include line. *)
Definition lacks_include (fs : filesystem) (header : string) : bool :=
  match read_text fs header with
  | Returned content => negb (Str.contains juce_include content)
  | Raised _ => false
  end.

(** The issues of the second pass over [headers], when every read succeeds. *)
Definition include_issues (fs : filesystem) (headers : list string)
  : list string :=
  map missing_include (filter (lacks_include fs) headers).

(** The exception of the first header, in the order of [headers], that
    cannot be read. *)
Fixpoint first_failure (fs : filesystem) (headers : list string)
  : option exception :=
  match headers with
  | [] => None
  | header :: rest =>
      match read_text fs header with
      | Raised e => Some e
      | Returned _ => first_failure fs rest
      end
  end.

(** The two kinds of issue, told apart by their text. *)
Definition is_missing_implementation (issue : string) : bool :=
  prefix "Missing implementation: " issue.

Definition is_missing_include (issue : string) : bool :=
  prefix "Missing JuceHeader.h in: " issue.

(** The line of an issue as it is to appear on standard output: the bytes
    E2 9A A0 EF B8 8F of the warning sign, two spaces, the text of the
    issue, and a line feed. *)
Definition report_prefix : string :=
  String "226" (String "154" (String "160"
    (String "239" (String "184" (String "143" (String " " (String " " "")))))))%char.

Definition report_line (issue : string) : string :=
  report_prefix ++ issue ++ String "010"%char "".

(** The text of a sequence of lines written one after the other. *)
Definition lines_text (lines : list string) : string :=
  fold_right append EmptyString lines.

(** The result of a run with a function applied to what it returns. *)
Definition outcome_map {A B : Type} (f : A -> B) (o : outcome A) : outcome B :=
  match o with
  | Returned a => Returned (f a)
  | Raised e => Raised e
  end.

(** ** Sample source trees *)

Definition text_with_include : string :=
  "#pragma once" ++ newline ++ "#include <JuceHeader.h>" ++ newline.

Definition text_without_include : string :=
  "#pragma once" ++ newline ++ "class Bar {};" ++ newline.

(** Two headers: [src/a/Foo.h] has its implementation and the include line,
    [src/b/Bar.h] has neither. *)
Definition sample_fs : filesystem := {|
  glob pattern :=
    if String.eqb pattern "src/**/*.h" then ["src/a/Foo.h"; "src/b/Bar.h"] else [];
  path_exists path :=
    String.eqb path "src/a/Foo.h" || String.eqb path "src/a/Foo.cpp"
    || String.eqb path "src/b/Bar.h";
  read_text path :=
    if String.eqb path "src/a/Foo.h" then Returned text_with_include
    else if String.eqb path "src/b/Bar.h" then Returned text_without_include
    else Raised FileNotFoundError
|}.

(** The same tree after [src/b/Bar.cpp] was added. *)
Definition sample_fs_with_cpp : filesystem := {|
  glob := glob sample_fs;
  path_exists path := String.eqb path "src/b/Bar.cpp" || path_exists sample_fs path;
  read_text := read_text sample_fs
|}.

(** The same tree after a file that is no header was written. *)
Definition sample_fs_touched : filesystem := {|
  glob := glob sample_fs;
  path_exists path := String.eqb path "README.md" || path_exists sample_fs path;
  read_text path :=
    if String.eqb path "README.md" then Returned "notes"
    else read_text sample_fs path
|}.

(** The same tree with [src/b/Bar.h] unreadable. *)
Definition locked_fs : filesystem := {|
  glob := glob sample_fs;
  path_exists := path_exists sample_fs;
  read_text path :=
    if String.eqb path "src/b/Bar.h" then Raised PermissionError
    else read_text sample_fs path
|}.

(** A tree without headers. *)
Definition empty_fs : filesystem := {|
  glob _ := [];
  path_exists _ := false;
  read_text _ := Raised FileNotFoundError
|}.

(** ** Further notions and sample trees *)

(** [open] and [read] succeed on the header. *)
Definition readable (fs : filesystem) (header : string) : bool :=
  match read_text fs header with
  | Returned _ => true
  | Raised _ => false
  end.

(** The number of line feeds of a text. *)
Fixpoint count_newlines (s : string) : nat :=
  match s with
  | EmptyString => 0
  | String c rest =>
      (if Ascii.eqb c (ascii_of_nat 10) then 1 else 0) + count_newlines rest
  end.

(** The lines of a text: each ends at a line feed, the last one also at the
    end of the text. *)
Fixpoint lines_of (s : string) : list string :=
  match s with
  | EmptyString => []
  | String c rest =>
      if Ascii.eqb c (ascii_of_nat 10) then EmptyString :: lines_of rest
      else
        match lines_of rest with
        | [] => [String c EmptyString]
        | line :: lines => String c line :: lines
        end
  end.

(** Every character of the text is in ASCII. *)
Fixpoint is_ascii (s : string) : bool :=
  match s with
  | EmptyString => true
  | String c rest => (nat_of_ascii c <? 128)%nat && is_ascii rest
  end.

(** A standard output in UTF-8 that takes every write, and one in ASCII
    that refuses a text with any other character. *)
Definition utf8_stdout : stdout_device := fun _ _ => None.

Definition ascii_stdout : stdout_device :=
  fun _ text => if is_ascii text then None else Some UnicodeEncodeError.

(** A header with a line feed in its name, without implementation. *)
Definition odd_header : string := "src/odd" ++ String "010"%char "name.h".

Definition newline_fs : filesystem := {|
  glob pattern := if String.eqb pattern "src/**/*.h" then [odd_header] else [];
  path_exists path := String.eqb path odd_header;
  read_text path :=
    if String.eqb path odd_header then Returned text_with_include
    else Raised FileNotFoundError
|}.

(** Three headers, the last two unreadable for different reasons. *)
Definition broken_fs : filesystem := {|
  glob pattern :=
    if String.eqb pattern "src/**/*.h"
    then ["src/a/Foo.h"; "src/b/Bar.h"; "src/c/Baz.h"] else [];
  path_exists _ := true;
  read_text path :=
    if String.eqb path "src/a/Foo.h" then Returned text_without_include
    else if String.eqb path "src/b/Bar.h" then Raised UnicodeDecodeError
    else if String.eqb path "src/c/Baz.h" then Raised PermissionError
    else Raised FileNotFoundError
|}.

(** Two headers without implementation and without the include line, and
    the same tree enumerated in the other order. *)
Definition bare_fs : filesystem := {|
  glob pattern :=
    if String.eqb pattern "src/**/*.h" then ["src/a/Foo.h"; "src/b/Bar.h"] else [];
  path_exists path := String.eqb path "src/a/Foo.h" || String.eqb path "src/b/Bar.h";
  read_text path :=
    if String.eqb path "src/a/Foo.h" || String.eqb path "src/b/Bar.h"
    then Returned text_without_include
    else Raised FileNotFoundError
|}.

Definition bare_fs_reversed : filesystem := {|
  glob pattern :=
    if String.eqb pattern "src/**/*.h" then ["src/b/Bar.h"; "src/a/Foo.h"] else [];
  path_exists := path_exists bare_fs;
  read_text := read_text bare_fs
|}.

(** A header enumerated by a glob that ignores case: its path has no
    ['.h'].  There is no implementation file. *)
Definition upper_fs : filesystem := {|
  glob pattern := if String.eqb pattern "src/**/*.h" then ["src/a/FOO.H"] else [];
  path_exists path := String.eqb path "src/a/FOO.H";
  read_text path :=
    if String.eqb path "src/a/FOO.H" then Returned text_with_include
    else Raised FileNotFoundError
|}.

(** ** Facts on strings *)

Section StringFacts.

#[local] Arguments ascii_dec : simpl never.

Lemma append_nil_r (s : string) : s ++ "" = s.
Proof. induction s as [|c s IH]; simpl; [reflexivity | now rewrite IH]. Qed.

Lemma append_assoc (a b c : string) : (a ++ b) ++ c = a ++ b ++ c.
Proof. induction a as [|x a IH]; simpl; [reflexivity | now rewrite IH]. Qed.

Lemma append_inv_head (p a b : string) : p ++ a = p ++ b -> a = b.
Proof.
  induction p as [|x p IH]; simpl; intros H; [exact H|].
  injection H as H. now apply IH.
Qed.

Lemma prefix_empty (s : string) : prefix "" s = true.
Proof. now destruct s. Qed.

Lemma prefix_append (p s : string) : prefix p (p ++ s) = true.
Proof.
  induction p as [|x p IH]; cbn [prefix append]; [apply prefix_empty|].
  destruct (ascii_dec x x) as [_|N]; [exact IH | now elim N].
Qed.

Lemma prefix_elim (p s : string) : prefix p s = true -> exists t, s = p ++ t.
Proof.
  revert s. induction p as [|x p IH]; intros s H; [now exists s|].
  destruct s as [|y s]; [discriminate|]. cbn [prefix] in H.
  destruct (ascii_dec x y) as [<-|]; [|discriminate].
  destruct (IH s H) as [t ->]. now exists t.
Qed.

Lemma prefix_dot_h (c : ascii) (s : string) :
  prefix ".h" (String c s) = (Ascii.eqb "." c && prefix "h" s)%bool.
Proof.
  cbn [prefix].
  destruct (ascii_dec "." c) as [E|N].
  - subst c. reflexivity.
  - apply Ascii.eqb_neq in N. now rewrite N.
Qed.

Lemma prefix_h_append (r b : string) :
  prefix "h" r = false -> prefix "h" b = false -> prefix "h" (r ++ b) = false.
Proof.
  destruct r as [|d r]; cbn [prefix append]; intros Hr Hb; [exact Hb|].
  destruct (ascii_dec "h" d); [|reflexivity].
  now rewrite prefix_empty in Hr.
Qed.

Lemma endswith_iff (suffix s : string) :
  Str.endswith suffix s = true <-> exists pre, s = pre ++ suffix.
Proof.
  induction s as [|c s IH]; cbn [Str.endswith].
  - rewrite orb_false_r, String.eqb_eq. split.
    + intros <-. now exists "".
    + intros [[|x pre] H]; simpl in H; [exact H | discriminate].
  - rewrite orb_true_iff, String.eqb_eq, IH. split.
    + intros [<- | [pre ->]]; [now exists "" | now exists (String c pre)].
    + intros [[|x pre] H]; simpl in H.
      * now left.
      * injection H as _ H. right. now exists pre.
Qed.

End StringFacts.

(** ** The companion path *)

Section CompanionPath.

#[local] Arguments ascii_dec : simpl never.

(** The three equations of the scan for ['.h'] and ['.cpp']. *)
Lemma cpp_file_empty : cpp_file "" = "".
Proof. reflexivity. Qed.

Lemma cpp_file_hit (rest : string) :
  cpp_file (".h" ++ rest) = ".cpp" ++ cpp_file rest.
Proof.
  unfold cpp_file, Str.replace. cbn [append Str.replace_scan].
  pose proof (prefix_append ".h" rest) as H. cbn [append] in H.
  rewrite H. reflexivity.
Qed.

Lemma cpp_file_miss (c : ascii) (rest : string) :
  prefix ".h" (String c rest) = false ->
  cpp_file (String c rest) = String c (cpp_file rest).
Proof.
  intros H. unfold cpp_file, Str.replace.
  cbn [Str.replace_scan]. now rewrite H.
Qed.

(** Induction along the scan: an occurrence is passed over whole. *)
Lemma scan_ind (P : string -> Prop) :
  P "" ->
  (forall rest, P rest -> P (".h" ++ rest)) ->
  (forall c rest, prefix ".h" (String c rest) = false -> P rest -> P (String c rest)) ->
  forall s, P s.
Proof.
  intros Hempty Hhit Hmiss s.
  enough (H : forall n s, String.length s <= n -> P s) by (apply (H (String.length s)); lia).
  clear s. induction n as [|n IH]; intros s Hlen.
  - destruct s; [exact Hempty | simpl in Hlen; lia].
  - destruct s as [|c rest]; [exact Hempty|].
    destruct (prefix ".h" (String c rest)) eqn:E.
    + rewrite prefix_dot_h in E. apply andb_prop in E as [Ec Eh].
      apply Ascii.eqb_eq in Ec. subst c.
      destruct rest as [|d rest]; [discriminate|].
      cbn [prefix] in Eh. destruct (ascii_dec "h" d) as [<-|]; [|discriminate].
      apply (Hhit rest). apply IH. simpl in Hlen. lia.
    + apply Hmiss; [exact E|]. apply IH. simpl in Hlen. lia.
Qed.

(** The scan of a concatenation is the concatenation of the scans, when no
    occurrence can straddle the cut. *)
Lemma cpp_file_append (a b : string) :
  prefix "h" b = false -> cpp_file (a ++ b) = cpp_file a ++ cpp_file b.
Proof.
  intros Hb. induction a as [|rest IH|c rest Hc IH] using scan_ind.
  - reflexivity.
  - change ((".h" ++ rest) ++ b) with (".h" ++ (rest ++ b)).
    rewrite !cpp_file_hit, IH. reflexivity.
  - cbn [append]. rewrite (cpp_file_miss c rest Hc), cpp_file_miss, IH; [reflexivity|].
    rewrite prefix_dot_h in *.
    destruct (Ascii.eqb "." c); [|reflexivity].
    cbn [andb] in *. now apply prefix_h_append.
Qed.

(** A path without ['.h'] is its own companion. *)
Lemma cpp_file_without_dot_h (p : string) :
  Str.contains ".h" p = false -> cpp_file p = p.
Proof.
  induction p as [|c p IH]; [reflexivity|].
  cbn [Str.contains]. intros H. apply orb_false_elim in H as [Hp Hc].
  rewrite (cpp_file_miss c p Hp), (IH Hc). reflexivity.
Qed.

Lemma prefix_h_head (d : ascii) (s t : string) :
  prefix "h" (String d s) = prefix "h" (String d t).
Proof.
  cbn [prefix]. destruct (ascii_dec "h" d); [|reflexivity].
  now rewrite !prefix_empty.
Qed.

Lemma miss_extends (c : ascii) (p rest : string) :
  prefix ".h" (String c (p ++ ".h" ++ rest)) = prefix ".h" (String c p).
Proof.
  rewrite !prefix_dot_h. f_equal. destruct p as [|d p].
  - vm_compute. reflexivity.
  - cbn [append]. apply prefix_h_head.
Qed.

(** Every path is cut by its occurrences of ['.h'] into pieces that contain
    none. *)
Lemma path_splits_at_occurrences (s : string) :
  exists p ps,
    forallb (fun q => negb (Str.contains ".h" q)) (p :: ps) = true /\
    s = String.concat ".h" (p :: ps).
Proof.
  induction s as [|rest IH|c rest Hc IH] using scan_ind.
  - now exists "", [].
  - destruct IH as (p & ps & Hok & ->). now exists "", (p :: ps).
  - destruct IH as (p & ps & Hok & ->).
    exists (String c p), ps. split.
    + cbn [forallb] in *. apply andb_prop in Hok as [Hp Hps].
      apply andb_true_intro. split; [|exact Hps].
      apply negb_true_iff in Hp. apply negb_true_iff.
      cbn [Str.contains]. rewrite Hp, orb_false_r.
      destruct ps as [|q qs]; [exact Hc|].
      change (String.concat ".h" (p :: q :: qs))
        with (p ++ ".h" ++ String.concat ".h" (q :: qs)) in Hc.
      now rewrite miss_extends in Hc.
    + now destruct ps.
Qed.

Lemma substring_all (s : string) : substring 0 (String.length s) s = s.
Proof. induction s as [|c s IH]; [reflexivity | cbn; now rewrite IH]. Qed.

(** On a path with a single occurrence of ['.h'] the script and the
    replacement of the first occurrence agree. *)
Lemma replace_first_single (a b : string) :
  Str.contains ".h" a = false ->
  Str.replace_first ".h" ".cpp" (a ++ ".h" ++ b) = a ++ ".cpp" ++ b.
Proof.
  induction a as [|c a IH]; intros Ha.
  - cbn [append Str.replace_first].
    pose proof (prefix_append ".h" b) as H. cbn [append] in H. rewrite H.
    cbn [String.length Nat.sub substring].
    now rewrite Nat.sub_0_r, substring_all.
  - cbn [Str.contains] in Ha. apply orb_false_elim in Ha as [Hp Ha].
    change (String c a ++ ".h" ++ b) with (String c (a ++ ".h" ++ b)).
    cbn [Str.replace_first].
    rewrite miss_extends, Hp, (IH Ha). reflexivity.
Qed.

Lemma cpp_file_single_occurrence (a b : string) :
  Str.contains ".h" a = false -> Str.contains ".h" b = false ->
  cpp_file (a ++ ".h" ++ b) = Str.replace_first ".h" ".cpp" (a ++ ".h" ++ b).
Proof.
  intros Ha Hb. rewrite (replace_first_single a b Ha).
  rewrite cpp_file_append by reflexivity.
  now rewrite cpp_file_hit, (cpp_file_without_dot_h a Ha), (cpp_file_without_dot_h b Hb).
Qed.

Lemma cpp_file_suffix (pre : string) :
  cpp_file (pre ++ ".h") = cpp_file pre ++ ".cpp".
Proof. now rewrite cpp_file_append. Qed.

Lemma endswith_h_not_cpp (s : string) :
  Str.endswith ".h" s = true -> Str.endswith ".cpp" s = false.
Proof.
  induction s as [|c s IH]; [discriminate|].
  cbn [Str.endswith]. intros H. apply orb_prop in H as [H|H].
  - apply String.eqb_eq in H. injection H as -> ->. reflexivity.
  - rewrite (IH H), orb_false_r. apply String.eqb_neq. intros E.
    injection E as _ ->. discriminate.
Qed.

Lemma cpp_file_endswith (header : string) :
  Str.endswith ".h" header = true -> Str.endswith ".cpp" (cpp_file header) = true.
Proof.
  intros H. apply endswith_iff in H as [pre ->].
  rewrite cpp_file_suffix. apply endswith_iff. now exists (cpp_file pre).
Qed.

Lemma cpp_file_differs (header : string) :
  Str.endswith ".h" header = true -> cpp_file header <> header.
Proof.
  intros H E. pose proof (cpp_file_endswith header H) as Hc.
  rewrite E, (endswith_h_not_cpp header H) in Hc. discriminate.
Qed.

End CompanionPath.

(** ** The texts of the issues *)

Section IssueTexts.

Lemma missing_implementation_inj (h h' : string) :
  missing_implementation h = missing_implementation h' -> h = h'.
Proof. apply append_inv_head. Qed.

Lemma missing_include_inj (h h' : string) :
  missing_include h = missing_include h' -> h = h'.
Proof. apply append_inv_head. Qed.

Lemma implementation_is_implementation (h : string) :
  is_missing_implementation (missing_implementation h) = true.
Proof. apply prefix_append. Qed.

Lemma include_is_include (h : string) :
  is_missing_include (missing_include h) = true.
Proof. apply prefix_append. Qed.

Lemma implementation_not_include (h : string) :
  is_missing_include (missing_implementation h) = false.
Proof. reflexivity. Qed.

Lemma include_not_implementation (h : string) :
  is_missing_implementation (missing_include h) = false.
Proof. reflexivity. Qed.

Lemma kinds_disjoint (issue : string) :
  is_missing_implementation issue = true -> is_missing_include issue = false.
Proof.
  unfold is_missing_implementation. intros H.
  apply prefix_elim in H as [h ->]. apply implementation_not_include.
Qed.

End IssueTexts.

(** ** The loops *)

Section Loops.

Variable fs : filesystem.

Lemma first_loop (headers acc : list string) :
  for_each headers (check_implementation fs) acc
  = Returned (acc ++ implementation_issues fs headers)%list.
Proof.
  revert acc. induction headers as [|h hs IH]; intros acc.
  - cbn. now rewrite app_nil_r.
  - cbn [for_each]. unfold check_implementation at 1, implementation_issues.
    cbn [filter]. destruct (negb (path_exists fs (cpp_file h))); cbn [bind ret].
    + rewrite IH. unfold implementation_issues. cbn [map].
      now rewrite <- app_assoc.
    + apply IH.
Qed.

Lemma second_loop (headers acc : list string) :
  for_each headers (check_include fs) acc
  = match first_failure fs headers with
    | Some e => Raised e
    | None => Returned (acc ++ include_issues fs headers)%list
    end.
Proof.
  revert acc. induction headers as [|h hs IH]; intros acc.
  - cbn. now rewrite app_nil_r.
  - cbn [for_each first_failure]. unfold check_include at 1, include_issues.
    cbn [filter]. unfold lacks_include at 1.
    destruct (read_text fs h) as [content|e]; cbn [bind]; [|reflexivity].
    destruct (negb (Str.contains juce_include content)); cbn [bind ret].
    + rewrite IH. destruct (first_failure fs hs); [reflexivity|].
      unfold include_issues. cbn [map]. now rewrite <- app_assoc.
    + apply IH.
Qed.

(** The run: the exception of the first unreadable header, or the issues
    of the first pass followed by those of the second. *)
Lemma check_project_eq :
  check_project fs
  = match first_failure fs (glob fs headers_pattern) with
    | Some e => Raised e
    | None =>
        Returned (implementation_issues fs (glob fs headers_pattern)
                  ++ include_issues fs (glob fs headers_pattern))%list
    end.
Proof.
  unfold check_project. rewrite first_loop. cbn [bind app].
  rewrite second_loop. now destruct (first_failure fs _).
Qed.

Lemma first_failure_none (headers : list string) :
  first_failure fs headers = None <->
  Forall (fun h => exists content, read_text fs h = Returned content) headers.
Proof.
  induction headers as [|h hs IH]; cbn [first_failure].
  - split; [constructor | reflexivity].
  - destruct (read_text fs h) as [content|e] eqn:E.
    + rewrite IH. split.
      * intros H. constructor; [now exists content | exact H].
      * intros H. now inversion H.
    + split; [discriminate|].
      intros H. inversion H as [|? ? [content Hc] _]. congruence.
Qed.

Lemma first_failure_some (headers : list string) (h : string) (e : exception) :
  In h headers -> read_text fs h = Raised e ->
  exists h' e', In h' headers /\ read_text fs h' = Raised e'
                /\ first_failure fs headers = Some e'.
Proof.
  induction headers as [|x hs IH]; intros Hin Hr; [contradiction|].
  cbn [first_failure]. destruct (read_text fs x) as [content|e0] eqn:E.
  - destruct Hin as [->|Hin]; [congruence|].
    destruct (IH Hin Hr) as (h' & e' & Hin' & Hr' & Hf).
    exists h', e'. repeat split; [now right | exact Hr' | exact Hf].
  - exists x, e0. repeat split; [now left | exact E].
Qed.

Lemma check_project_returned (issues : list string) :
  check_project fs = Returned issues ->
  first_failure fs (glob fs headers_pattern) = None /\
  issues = (implementation_issues fs (glob fs headers_pattern)
            ++ include_issues fs (glob fs headers_pattern))%list.
Proof.
  rewrite check_project_eq.
  destruct (first_failure fs _); [discriminate|].
  intros H. injection H as <-. now split.
Qed.

End Loops.

(** ** Membership in the two passes *)

Section Passes.

Variable fs : filesystem.

Lemma in_implementation_issues (headers : list string) (h : string) :
  In (missing_implementation h) (implementation_issues fs headers) <->
  In h headers /\ path_exists fs (cpp_file h) = false.
Proof.
  unfold implementation_issues. rewrite in_map_iff. split.
  - intros (x & E & Hx). apply missing_implementation_inj in E. subst x.
    apply filter_In in Hx as [Hin Hx]. split; [exact Hin|].
    now apply negb_true_iff.
  - intros [Hin Hx]. exists h. split; [reflexivity|].
    apply filter_In. split; [exact Hin | now apply negb_true_iff].
Qed.

Lemma in_include_issues (headers : list string) (h : string) :
  In (missing_include h) (include_issues fs headers) <->
  In h headers /\ lacks_include fs h = true.
Proof.
  unfold include_issues. rewrite in_map_iff. split.
  - intros (x & E & Hx). apply missing_include_inj in E. subst x.
    now apply filter_In in Hx.
  - intros H. exists h. split; [reflexivity | now apply filter_In].
Qed.

Lemma implementation_issues_kind (headers : list string) :
  Forall (fun i => is_missing_implementation i = true)
    (implementation_issues fs headers).
Proof.
  apply Forall_forall. intros i Hi. apply in_map_iff in Hi as (h & <- & _).
  apply implementation_is_implementation.
Qed.

Lemma include_issues_kind (headers : list string) :
  Forall (fun i => is_missing_include i = true) (include_issues fs headers).
Proof.
  apply Forall_forall. intros i Hi. apply in_map_iff in Hi as (h & <- & _).
  apply include_is_include.
Qed.

Lemma filter_include_of_run (headers : list string) :
  filter is_missing_include
    (implementation_issues fs headers ++ include_issues fs headers)%list
  = include_issues fs headers.
Proof.
  rewrite filter_app.
  assert (H1 : filter is_missing_include (implementation_issues fs headers) = []).
  { unfold implementation_issues.
    induction (filter _ headers) as [|h hs IH]; [reflexivity|].
    cbn [map filter]. now rewrite implementation_not_include. }
  assert (H2 : filter is_missing_include (include_issues fs headers)
               = include_issues fs headers).
  { unfold include_issues.
    induction (filter _ headers) as [|h hs IH]; [reflexivity|].
    cbn [map filter]. now rewrite include_is_include, IH. }
  now rewrite H1, H2.
Qed.

Lemma filter_length_le {A : Type} (f : A -> bool) (l : list A) :
  length (filter f l) <= length l.
Proof.
  induction l as [|x l IH]; [reflexivity|].
  cbn [filter]. destruct (f x); cbn [length]; lia.
Qed.

End Passes.

(** ** What a run depends on *)

Section Dependence.

Variables fs1 fs2 : filesystem.
Variable headers : list string.

Lemma implementation_issues_ext :
  (forall h, In h headers ->
     path_exists fs1 (cpp_file h) = path_exists fs2 (cpp_file h)) ->
  implementation_issues fs1 headers = implementation_issues fs2 headers.
Proof.
  unfold implementation_issues. intros H. f_equal.
  induction headers as [|h hs IH]; [reflexivity|].
  cbn [filter]. rewrite (H h (or_introl eq_refl)), IH; [reflexivity|].
  intros x Hx. apply H. now right.
Qed.

Lemma include_issues_ext :
  (forall h, In h headers -> read_text fs1 h = read_text fs2 h) ->
  include_issues fs1 headers = include_issues fs2 headers.
Proof.
  unfold include_issues. intros H. f_equal.
  induction headers as [|h hs IH]; [reflexivity|].
  assert (E : lacks_include fs1 h = lacks_include fs2 h)
    by (unfold lacks_include; now rewrite (H h (or_introl eq_refl))).
  cbn [filter]. rewrite E, IH; [reflexivity|].
  intros x Hx. apply H. now right.
Qed.

Lemma first_failure_ext :
  (forall h, In h headers -> read_text fs1 h = read_text fs2 h) ->
  first_failure fs1 headers = first_failure fs2 headers.
Proof.
  intros H. induction headers as [|h hs IH]; [reflexivity|].
  cbn [first_failure]. rewrite (H h (or_introl eq_refl)), IH; [reflexivity|].
  intros x Hx. apply H. now right.
Qed.

End Dependence.

(** ** Standard output *)

Section Output.

Variable dev : stdout_device.

(** What one [print] of the entry point writes is the line of the issue. *)
Lemma printed_text (problem : string) :
  (warning_prefix ++ problem) ++ newline = report_line problem.
Proof. unfold report_line. rewrite append_assoc. reflexivity. Qed.

Lemma print_cases (s stdout : string) :
  print dev s stdout
  = match dev stdout s with
    | Some e => (stdout, Raised e)
    | None =>
        match dev (stdout ++ s) newline with
        | Some e => (stdout ++ s, Raised e)
        | None => ((stdout ++ s) ++ newline, Returned tt)
        end
    end.
Proof.
  unfold print, io_bind, write. destruct (dev stdout s); [reflexivity|].
  now destruct (dev (stdout ++ s) newline).
Qed.

Lemma main_eq (fs : filesystem) :
  main dev fs
  = match check_project fs with
    | Raised e => (EmptyString, Raised e)
    | Returned problems =>
        io_for_each problems (fun problem => print dev (warning_prefix ++ problem))
          EmptyString
    end.
Proof. unfold main, io_bind, io_call. now destruct (check_project fs). Qed.


(** On a standard output that takes the writes, the loop writes the lines
    of all the issues and ends normally. *)
Lemma print_loop_accepted (problems : list string) (stdout : string) :
  (forall so_far p, In p problems -> dev so_far (report_prefix ++ p) = None) ->
  (forall so_far, dev so_far (String "010"%char "") = None) ->
  io_for_each problems (fun problem => print dev (warning_prefix ++ problem)) stdout
  = (stdout ++ lines_text (map report_line problems), Returned tt).
Proof.
  intros Hline Hend. revert stdout.
  induction problems as [|p ps IH]; intros stdout.
  - cbn. now rewrite append_nil_r.
  - cbn [io_for_each]. unfold io_bind at 1. rewrite print_cases.
    change (warning_prefix ++ p) with (report_prefix ++ p).
    change newline with (String "010"%char "").
    rewrite (Hline stdout p (or_introl eq_refl)), Hend.
    rewrite IH by (intros so_far q Hq; apply Hline; now right).
    cbn [map lines_text fold_right]. f_equal.
    change (String "010"%char "") with newline.
    change (report_prefix ++ p) with (warning_prefix ++ p).
    now rewrite (append_assoc stdout), printed_text, append_assoc.
Qed.


Lemma count_newlines_append (a b : string) :
  count_newlines (a ++ b) = count_newlines a + count_newlines b.
Proof.
  induction a as [|c a IH]; [reflexivity|].
  cbn [append count_newlines]. rewrite IH. lia.
Qed.

Lemma count_newlines_report_line (issue : string) :
  count_newlines (report_line issue) = S (count_newlines issue).
Proof.
  unfold report_line. rewrite !count_newlines_append.
  change (count_newlines report_prefix) with 0.
  change (count_newlines (String "010"%char "")) with 1. lia.
Qed.

Lemma count_newlines_lines (issues : list string) :
  Forall (fun i => count_newlines i = 0) issues ->
  count_newlines (lines_text (map report_line issues)) = length issues.
Proof.
  induction 1 as [|i rest Hi _ IH]; [reflexivity|].
  cbn [map lines_text fold_right length].
  rewrite count_newlines_append, count_newlines_report_line, Hi.
  unfold lines_text in IH. now rewrite IH.
Qed.

(** A text without line feed, then a line feed: one line. *)
Lemma lines_of_line (line rest : string) :
  count_newlines line = 0 ->
  lines_of (line ++ String "010"%char rest) = line :: lines_of rest.
Proof.
  induction line as [|c line IH]; intros H; [reflexivity|].
  cbn [count_newlines] in H. cbn [append lines_of].
  destruct (Ascii.eqb c (ascii_of_nat 10)); [discriminate|].
  now rewrite IH.
Qed.

Lemma lines_of_report (issues : list string) :
  Forall (fun i => count_newlines i = 0) issues ->
  lines_of (lines_text (map report_line issues)) = map (append report_prefix) issues.
Proof.
  induction 1 as [|i rest Hi _ IH]; [reflexivity|].
  cbn [map lines_text fold_right]. unfold report_line at 1.
  rewrite !append_assoc. cbn [append].
  rewrite <- append_assoc, lines_of_line.
  - f_equal. exact IH.
  - rewrite count_newlines_append, Hi. reflexivity.
Qed.

(** Issues for headers without line feed have none. *)
Lemma issues_without_newline (fs : filesystem) (headers : list string) :
  forallb (fun h => Nat.eqb (count_newlines h) 0) headers = true ->
  Forall (fun i => count_newlines i = 0)
    (implementation_issues fs headers ++ include_issues fs headers)%list.
Proof.
  intros Hpaths. rewrite forallb_forall in Hpaths.
  apply Forall_forall. intros i Hi.
  apply in_app_or in Hi as [Hi|Hi];
    apply in_map_iff in Hi as (h & <- & Hh); apply filter_In in Hh as [Hh _];
    apply Hpaths, Nat.eqb_eq in Hh.
  - unfold missing_implementation. now rewrite count_newlines_append, Hh.
  - unfold missing_include. now rewrite count_newlines_append, Hh.
Qed.

End Output.

(** ** The properties of the specification *)

(** C1, as the specification states it, fails: on a path with ['.h'] in a
    directory name the script rewrites the later occurrence too, where the
    replacement of the first occurrence alone leaves it. *)
Lemma cpp_file_not_first_occurrence_only :
  cpp_file "src/math.helpers/Vec.h" = "src/math.cppelpers/Vec.cpp" /\
  Str.replace_first ".h" ".cpp" "src/math.helpers/Vec.h" = "src/math.cppelpers/Vec.h" /\
  cpp_file "src/math.helpers/Vec.h" <> Str.replace_first ".h" ".cpp" "src/math.helpers/Vec.h".
Proof. repeat split. vm_compute. discriminate. Qed.

(** C1, amended: the expected implementation path is the header path with
    every occurrence of ['.h'] replaced by ['.cpp'], a pure textual
    transform.  Whenever the header path is cut at its occurrences of ['.h']
    into pieces that contain none, the expected path is these pieces joined
    by ['.cpp']: the occurrences after the first are replaced as well. *)
Theorem cpp_file_replaces_every_occurrence (pieces : list string) :
  forallb (fun p => negb (Str.contains ".h" p)) pieces = true ->
  cpp_file (String.concat ".h" pieces) = String.concat ".cpp" pieces.
Proof.
  induction pieces as [|p rest IH]; intros H; [reflexivity|].
  cbn [forallb] in H. apply andb_prop in H as [Hp Hrest].
  apply negb_true_iff in Hp. specialize (IH Hrest).
  destruct rest as [|q rest].
  - cbn [String.concat]. now apply cpp_file_without_dot_h.
  - change (String.concat ".h" (p :: q :: rest)) with (p ++ ".h" ++ String.concat ".h" (q :: rest)).
    change (String.concat ".cpp" (p :: q :: rest)) with (p ++ ".cpp" ++ String.concat ".cpp" (q :: rest)).
    rewrite cpp_file_append by reflexivity.
    rewrite cpp_file_hit, IH, (cpp_file_without_dot_h p Hp). reflexivity.
Qed.

Lemma cpp_file_replaces_every_occurrence_witness :
  forallb (fun p => negb (Str.contains ".h" p)) ["src/math"; "elpers/Vec"; ""] = true /\
  cpp_file "src/math.helpers/Vec.h" = "src/math.cppelpers/Vec.cpp".
Proof.
  split; [reflexivity|].
  apply (cpp_file_replaces_every_occurrence ["src/math"; "elpers/Vec"; ""]).
  reflexivity.
Defined.

(** C2: in the sequence a run returns, every missing-implementation issue
    stands before every missing-include issue, whatever the order in which
    the headers were enumerated. *)
Theorem implementation_issues_precede_include_issues
  (fs : filesystem) (issues : list string) (i j : nat) (a b : string) :
  check_project fs = Returned issues ->
  nth_error issues i = Some a -> is_missing_implementation a = true ->
  nth_error issues j = Some b -> is_missing_include b = true ->
  i < j.
Proof.
  intros Hrun Ha Ka Hb Kb.
  apply check_project_returned in Hrun as [_ ->].
  set (first := implementation_issues fs (glob fs headers_pattern)) in *.
  set (second := include_issues fs (glob fs headers_pattern)) in *.
  assert (Hi : i < length first).
  { destruct (Nat.lt_ge_cases i (length first)) as [L|G]; [exact L|exfalso].
    rewrite nth_error_app2 in Ha by exact G. apply nth_error_In in Ha.
    pose proof (include_issues_kind fs (glob fs headers_pattern)) as F.
    rewrite Forall_forall in F. specialize (F a Ha).
    rewrite (kinds_disjoint a Ka) in F. discriminate. }
  assert (Hj : length first <= j).
  { destruct (Nat.lt_ge_cases j (length first)) as [L|G]; [exfalso | exact G].
    rewrite nth_error_app1 in Hb by exact L. apply nth_error_In in Hb.
    pose proof (implementation_issues_kind fs (glob fs headers_pattern)) as F.
    rewrite Forall_forall in F. specialize (F b Hb).
    rewrite (kinds_disjoint b F) in Kb. discriminate. }
  lia.
Qed.

Lemma implementation_issues_precede_include_issues_witness :
  check_project sample_fs
  = Returned ["Missing implementation: src/b/Bar.h";
              "Missing JuceHeader.h in: src/b/Bar.h"] /\
  0 < 1.
Proof.
  split; [reflexivity|].
  apply (implementation_issues_precede_include_issues sample_fs
           ["Missing implementation: src/b/Bar.h";
            "Missing JuceHeader.h in: src/b/Bar.h"] 0 1
           "Missing implementation: src/b/Bar.h"
           "Missing JuceHeader.h in: src/b/Bar.h"); reflexivity.
Defined.

(** C3: for a header the glob enumerates, the result contains
    "Missing implementation: <header>" exactly when the derived
    implementation path does not exist. *)
Theorem missing_implementation_iff
  (fs : filesystem) (issues : list string) (header : string) :
  check_project fs = Returned issues ->
  In header (glob fs headers_pattern) ->
  (In (missing_implementation header) issues <->
   path_exists fs (cpp_file header) = false).
Proof.
  intros Hrun Hin. apply check_project_returned in Hrun as [_ ->].
  rewrite in_app_iff, in_implementation_issues. split.
  - intros [[_ H]|H]; [exact H|exfalso].
    apply in_map_iff in H as (x & E & _).
    apply (f_equal is_missing_include) in E.
    rewrite include_is_include, implementation_not_include in E. discriminate.
  - intros H. left. now split.
Qed.

Lemma missing_implementation_iff_witness :
  check_project sample_fs
  = Returned ["Missing implementation: src/b/Bar.h";
              "Missing JuceHeader.h in: src/b/Bar.h"] /\
  In "src/b/Bar.h" (glob sample_fs headers_pattern) /\
  (In (missing_implementation "src/b/Bar.h")
      ["Missing implementation: src/b/Bar.h";
       "Missing JuceHeader.h in: src/b/Bar.h"] <->
   path_exists sample_fs (cpp_file "src/b/Bar.h") = false).
Proof.
  split; [reflexivity|]. split; [right; left; reflexivity|].
  apply (missing_implementation_iff sample_fs); [reflexivity|].
  right; left; reflexivity.
Defined.

(** C4: for a header the glob enumerates, the result contains
    "Missing JuceHeader.h in: <header>" exactly when the text of the header
    does not contain [#include <JuceHeader.h>]. *)
Theorem missing_include_iff
  (fs : filesystem) (issues : list string) (header : string) :
  check_project fs = Returned issues ->
  In header (glob fs headers_pattern) ->
  exists content,
    read_text fs header = Returned content /\
    (In (missing_include header) issues <->
     Str.contains juce_include content = false).
Proof.
  intros Hrun Hin. apply check_project_returned in Hrun as [Hok ->].
  apply first_failure_none in Hok. rewrite Forall_forall in Hok.
  destruct (Hok header Hin) as [content Hc]. exists content.
  split; [exact Hc|].
  rewrite in_app_iff, in_include_issues. unfold lacks_include. rewrite Hc.
  rewrite negb_true_iff. split.
  - intros [H|[_ H]]; [exfalso | exact H].
    apply in_map_iff in H as (x & E & _).
    apply (f_equal is_missing_include) in E.
    rewrite include_is_include, implementation_not_include in E. discriminate.
  - intros H. right. now split.
Qed.

Lemma missing_include_iff_witness :
  check_project sample_fs
  = Returned ["Missing implementation: src/b/Bar.h";
              "Missing JuceHeader.h in: src/b/Bar.h"] /\
  In "src/a/Foo.h" (glob sample_fs headers_pattern) /\
  exists content,
    read_text sample_fs "src/a/Foo.h" = Returned content /\
    (In (missing_include "src/a/Foo.h")
        ["Missing implementation: src/b/Bar.h";
         "Missing JuceHeader.h in: src/b/Bar.h"] <->
     Str.contains juce_include content = false).
Proof.
  split; [reflexivity|]. split; [left; reflexivity|].
  apply (missing_include_iff sample_fs); [reflexivity|].
  left; reflexivity.
Defined.

(** C5: the missing-include issues do not depend on the first pass.  Two
    trees with the same enumerated headers and the same results of reading
    them, whatever paths exist in either, give the same missing-include
    issues (or the same exception): those of every enumerated header whose
    text lacks the include line. *)
Theorem include_issues_independent_of_implementations (fs1 fs2 : filesystem) :
  glob fs1 headers_pattern = glob fs2 headers_pattern ->
  (forall h, In h (glob fs1 headers_pattern) -> read_text fs1 h = read_text fs2 h) ->
  outcome_map (filter is_missing_include) (check_project fs1)
  = outcome_map (filter is_missing_include) (check_project fs2)
  /\ outcome_map (filter is_missing_include) (check_project fs1)
     = match first_failure fs1 (glob fs1 headers_pattern) with
       | Some e => Raised e
       | None => Returned (include_issues fs1 (glob fs1 headers_pattern))
       end.
Proof.
  intros Hglob Hread.
  assert (K : forall fs,
    outcome_map (filter is_missing_include) (check_project fs)
    = match first_failure fs (glob fs headers_pattern) with
      | Some e => Raised e
      | None => Returned (include_issues fs (glob fs headers_pattern))
      end).
  { intros fs. rewrite check_project_eq.
    destruct (first_failure fs _); [reflexivity|].
    cbn [outcome_map]. now rewrite filter_include_of_run. }
  split; [|apply K].
  rewrite !K, <- Hglob.
  rewrite (first_failure_ext fs1 fs2 _ Hread), (include_issues_ext fs1 fs2 _ Hread).
  reflexivity.
Qed.

Lemma include_issues_independent_of_implementations_witness :
  path_exists sample_fs "src/b/Bar.cpp" <> path_exists sample_fs_with_cpp "src/b/Bar.cpp" /\
  outcome_map (filter is_missing_include) (check_project sample_fs)
  = outcome_map (filter is_missing_include) (check_project sample_fs_with_cpp).
Proof.
  split; [discriminate|].
  apply (include_issues_independent_of_implementations sample_fs sample_fs_with_cpp).
  - reflexivity.
  - intros h _. reflexivity.
Defined.

(** C6: when a header the glob enumerates cannot be opened or read, the run
    ends with the exception of such a header; no sequence of issues is
    returned, not even those found before the failure, and the entry point
    prints nothing. *)
Theorem unreadable_header_aborts_run
  (fs : filesystem) (header : string) (e : exception) :
  In header (glob fs headers_pattern) ->
  read_text fs header = Raised e ->
  (exists h' e',
     In h' (glob fs headers_pattern) /\ read_text fs h' = Raised e' /\
     check_project fs = Raised e' /\
     forall dev, main dev fs = (EmptyString, Raised e'))
  /\ (forall issues, check_project fs <> Returned issues).
Proof.
  intros Hin Hr.
  destruct (first_failure_some fs _ header e Hin Hr) as (h' & e' & Hin' & Hr' & Hf).
  assert (Hrun : check_project fs = Raised e')
    by (now rewrite check_project_eq, Hf).
  split.
  - exists h', e'. repeat split; try assumption.
    intros dev. rewrite main_eq. now rewrite Hrun.
  - intros issues. rewrite Hrun. discriminate.
Qed.

Lemma unreadable_header_aborts_run_witness :
  In "src/b/Bar.h" (glob locked_fs headers_pattern) /\
  read_text locked_fs "src/b/Bar.h" = Raised PermissionError /\
  forall issues, check_project locked_fs <> Returned issues.
Proof.
  split; [right; left; reflexivity|]. split; [reflexivity|].
  apply (unreadable_header_aborts_run locked_fs "src/b/Bar.h" PermissionError).
  - right; left; reflexivity.
  - reflexivity.
Defined.

(** C7: when the glob enumerates no header, the run returns the empty
    sequence. *)
Theorem no_headers_no_issues (fs : filesystem) :
  glob fs headers_pattern = [] -> check_project fs = Returned [].
Proof. intros H. unfold check_project. now rewrite H. Qed.

Lemma no_headers_no_issues_witness :
  glob empty_fs headers_pattern = [] /\ check_project empty_fs = Returned [].
Proof.
  split; [reflexivity|]. apply (no_headers_no_issues empty_fs). reflexivity.
Defined.

(** C8, as the specification states it, fails in two ways.  A header with
    a line feed in its name gives one issue and two lines of output; and on
    a standard output in ASCII, which cannot take the warning sign, the
    check returns two issues and the entry point writes nothing and ends
    with the exception of the first write. *)
Lemma output_is_not_one_line_per_issue :
  (check_project newline_fs
   = Returned ["Missing implementation: src/odd" ++ String "010"%char "name.h"] /\
   main utf8_stdout newline_fs
   = (report_prefix ++ "Missing implementation: src/odd"
        ++ String "010"%char ("name.h" ++ String "010"%char ""),
      Returned tt) /\
   lines_of (fst (main utf8_stdout newline_fs))
   = [report_prefix ++ "Missing implementation: src/odd"; "name.h"] /\
   lines_of (fst (main utf8_stdout newline_fs))
   <> map (append report_prefix)
        ["Missing implementation: src/odd" ++ String "010"%char "name.h"])
  /\
  (check_project sample_fs
   = Returned ["Missing implementation: src/b/Bar.h";
               "Missing JuceHeader.h in: src/b/Bar.h"] /\
   main ascii_stdout sample_fs = (EmptyString, Raised UnicodeEncodeError) /\
   lines_of (fst (main ascii_stdout sample_fs))
   <> map (append report_prefix)
        ["Missing implementation: src/b/Bar.h";
         "Missing JuceHeader.h in: src/b/Bar.h"]).
Proof.
  split; (split; [reflexivity|]); (split; [reflexivity|]).
  - split; [reflexivity|]. vm_compute. discriminate.
  - vm_compute. discriminate.
Qed.

(** C8, amended: run as the entry point on a standard output that takes the
    writes, on a tree where the check returns, the program writes, for each
    returned issue in the returned order, the warning sign, two spaces, the
    text of the issue and a line feed, and nothing else, and ends normally;
    when no enumerated header has a line feed in its path, these are exactly
    one line per issue, each the text of the issue after the warning sign
    and two spaces. *)
Theorem main_prints_one_line_per_issue
  (dev : stdout_device) (fs : filesystem) (issues : list string) :
  check_project fs = Returned issues ->
  (forall so_far issue, In issue issues -> dev so_far (report_prefix ++ issue) = None) ->
  (forall so_far, dev so_far (String "010"%char "") = None) ->
  main dev fs = (lines_text (map report_line issues), Returned tt) /\
  (forallb (fun h => Nat.eqb (count_newlines h) 0) (glob fs headers_pattern) = true ->
   lines_of (fst (main dev fs)) = map (append report_prefix) issues).
Proof.
  intros Hrun Hline Hend.
  assert (Hmain : main dev fs = (lines_text (map report_line issues), Returned tt)).
  { rewrite main_eq, Hrun. now rewrite (print_loop_accepted dev issues "" Hline Hend). }
  split; [exact Hmain|].
  intros Hpaths. rewrite Hmain. cbn [fst]. apply lines_of_report.
  apply check_project_returned in Hrun as [_ ->].
  now apply issues_without_newline.
Qed.

Lemma main_prints_one_line_per_issue_witness :
  check_project sample_fs
  = Returned ["Missing implementation: src/b/Bar.h";
              "Missing JuceHeader.h in: src/b/Bar.h"] /\
  main utf8_stdout sample_fs
  = (String "226" (String "154" (String "160" (String "239" (String "184"
       (String "143"
          ("  Missing implementation: src/b/Bar.h" ++
           String "010"
             (String "226" (String "154" (String "160" (String "239"
                (String "184" (String "143"
                   ("  Missing JuceHeader.h in: src/b/Bar.h" ++
                    String "010" "")))))))))))))%char,
     Returned tt).
Proof.
  split; [reflexivity|].
  apply (main_prints_one_line_per_issue utf8_stdout sample_fs
           ["Missing implementation: src/b/Bar.h";
            "Missing JuceHeader.h in: src/b/Bar.h"]); reflexivity.
Defined.

(** C9: the result of a run is a function of what the run observes.  Two
    trees where the glob enumerates the same headers in the same order, the
    derived paths have the same existence and the headers read the same,
    give the same result: the same sequence of issues or the same
    exception. *)
Theorem check_project_deterministic (fs1 fs2 : filesystem) :
  glob fs1 headers_pattern = glob fs2 headers_pattern ->
  (forall h, In h (glob fs1 headers_pattern) ->
     path_exists fs1 (cpp_file h) = path_exists fs2 (cpp_file h)) ->
  (forall h, In h (glob fs1 headers_pattern) -> read_text fs1 h = read_text fs2 h) ->
  check_project fs1 = check_project fs2.
Proof.
  intros Hglob Hexists Hread.
  rewrite !check_project_eq, <- Hglob.
  rewrite (first_failure_ext fs1 fs2 _ Hread), (include_issues_ext fs1 fs2 _ Hread),
    (implementation_issues_ext fs1 fs2 _ Hexists).
  reflexivity.
Qed.

Lemma check_project_deterministic_witness :
  path_exists sample_fs "README.md" <> path_exists sample_fs_touched "README.md" /\
  check_project sample_fs = check_project sample_fs_touched.
Proof.
  split; [discriminate|].
  apply (check_project_deterministic sample_fs sample_fs_touched).
  - reflexivity.
  - intros h [<-|[<-|[]]]; reflexivity.
  - intros h [<-|[<-|[]]]; reflexivity.
Defined.

(** C10: when every enumerated header ends in ['.h'], the derived path of
    each ends in ['.cpp'], differs from the header and is no enumerated
    header, so that the existence test never bears on a header; each header
    gives at most one issue in each pass, and the returned sequence is at
    most twice as long as the enumeration. *)
Theorem companion_paths_and_issue_count (fs : filesystem) (issues : list string) :
  forallb (Str.endswith ".h") (glob fs headers_pattern) = true ->
  check_project fs = Returned issues ->
  (forall h, Str.endswith ".h" h = true ->
     Str.endswith ".cpp" (cpp_file h) = true /\ cpp_file h <> h)
  /\ Forall (fun h => ~ In (cpp_file h) (glob fs headers_pattern))
       (glob fs headers_pattern)
  /\ (exists keep1 keep2 : string -> bool,
        issues = (map missing_implementation (filter keep1 (glob fs headers_pattern))
                  ++ map missing_include (filter keep2 (glob fs headers_pattern)))%list)
  /\ length issues <= 2 * length (glob fs headers_pattern).
Proof.
  intros Hsuffix Hrun.
  apply check_project_returned in Hrun as [_ ->].
  rewrite forallb_forall in Hsuffix.
  split; [|split; [|split]].
  - intros h Hh. split; [now apply cpp_file_endswith | now apply cpp_file_differs].
  - apply Forall_forall. intros h Hin. pose proof (Hsuffix h Hin) as Hh.
    intros Hc. apply Hsuffix in Hc. apply endswith_h_not_cpp in Hc.
    rewrite (cpp_file_endswith h Hh) in Hc. discriminate.
  - exists (fun header => negb (path_exists fs (cpp_file header))), (lacks_include fs).
    reflexivity.
  - unfold implementation_issues, include_issues.
    rewrite length_app, !length_map.
    pose proof (filter_length_le (fun header => negb (path_exists fs (cpp_file header)))
                  (glob fs headers_pattern)).
    pose proof (filter_length_le (lacks_include fs) (glob fs headers_pattern)).
    lia.
Qed.

Lemma companion_paths_and_issue_count_witness :
  forallb (Str.endswith ".h") (glob sample_fs headers_pattern) = true /\
  check_project sample_fs
  = Returned ["Missing implementation: src/b/Bar.h";
              "Missing JuceHeader.h in: src/b/Bar.h"] /\
  length ["Missing implementation: src/b/Bar.h";
          "Missing JuceHeader.h in: src/b/Bar.h"]
  <= 2 * length (glob sample_fs headers_pattern).
Proof.
  split; [reflexivity|]. split; [reflexivity|].
  apply (companion_paths_and_issue_count sample_fs
           ["Missing implementation: src/b/Bar.h";
            "Missing JuceHeader.h in: src/b/Bar.h"]); reflexivity.
Defined.

(** ** Further properties of the script *)

Section FurtherFacts.

Variable fs : filesystem.

Lemma first_failure_readable (headers : list string) :
  first_failure fs headers = None <-> forallb (readable fs) headers = true.
Proof.
  induction headers as [|h hs IH]; cbn [first_failure forallb]; [easy|].
  unfold readable at 1. destruct (read_text fs h); cbn [andb]; [exact IH | easy].
Qed.

Lemma first_failure_app (before after : list string) (h : string) (e : exception) :
  forallb (readable fs) before = true -> read_text fs h = Raised e ->
  first_failure fs (before ++ h :: after) = Some e.
Proof.
  intros Hb Hr. induction before as [|x xs IH]; cbn [app first_failure].
  - now rewrite Hr.
  - cbn [forallb] in Hb. apply andb_prop in Hb as [Hx Hxs].
    unfold readable in Hx. destruct (read_text fs x); [now apply IH | discriminate].
Qed.

Lemma filter_empty_iff {A : Type} (f : A -> bool) (l : list A) :
  filter f l = [] <-> forall x, In x l -> f x = false.
Proof.
  induction l as [|a l IH]; cbn [filter]; [easy|].
  destruct (f a) eqn:E; split.
  - discriminate.
  - intros H. rewrite (H a (or_introl eq_refl)) in E. discriminate.
  - intros H x [<-|Hx]; [exact E | now apply IH].
  - intros H. apply IH. intros x Hx. apply H. now right.
Qed.

Lemma Permutation_filter {A : Type} (f : A -> bool) (l l' : list A) :
  Permutation l l' -> Permutation (filter f l) (filter f l').
Proof.
  induction 1 as [|x l l' _ IH|x y l|l l' l'' _ IH1 _ IH2]; cbn [filter].
  - constructor.
  - destruct (f x); [now constructor | exact IH].
  - destruct (f x), (f y); try reflexivity. constructor.
  - now transitivity (filter f l').
Qed.


End FurtherFacts.

(** X1: a run returns a sequence of issues exactly when every enumerated
    header can be opened and read. *)
Theorem check_project_returns_iff_readable (fs : filesystem) :
  (exists issues, check_project fs = Returned issues) <->
  forallb (readable fs) (glob fs headers_pattern) = true.
Proof.
  rewrite <- first_failure_readable, check_project_eq.
  destruct (first_failure fs _) as [e|]; split.
  - intros [issues H]. discriminate.
  - discriminate.
  - reflexivity.
  - intros _. eexists. reflexivity.
Qed.

(** X2: the exception that ends a run is the one of the first header, in
    the order of the enumeration, that cannot be read; the failures of later
    headers are never reached. *)
Theorem first_unreadable_header_decides
  (fs : filesystem) (before after : list string) (header : string) (e : exception) :
  glob fs headers_pattern = (before ++ header :: after)%list ->
  forallb (readable fs) before = true ->
  read_text fs header = Raised e ->
  check_project fs = Raised e.
Proof.
  intros Hglob Hb Hr. rewrite check_project_eq, Hglob.
  now rewrite (first_failure_app fs before after header e Hb Hr).
Qed.

Lemma first_unreadable_header_decides_witness :
  read_text broken_fs "src/c/Baz.h" = Raised PermissionError /\
  check_project broken_fs = Raised UnicodeDecodeError.
Proof.
  split; [reflexivity|].
  apply (first_unreadable_header_decides broken_fs
           ["src/a/Foo.h"] ["src/c/Baz.h"] "src/b/Bar.h" UnicodeDecodeError);
    reflexivity.
Defined.

(** X3: the sequence a run returns is, in the order of the enumeration, one
    missing-implementation issue for each header whose derived path does not
    exist, followed, in the order of the enumeration again, by one
    missing-include issue for each header whose text lacks the include. *)
Theorem check_project_closed_form (fs : filesystem) (issues : list string) :
  check_project fs = Returned issues ->
  issues
  = (map missing_implementation
       (filter (fun h => negb (path_exists fs (cpp_file h))) (glob fs headers_pattern))
     ++ map missing_include
          (filter (fun h =>
                     match read_text fs h with
                     | Returned content => negb (Str.contains juce_include content)
                     | Raised _ => false
                     end) (glob fs headers_pattern)))%list.
Proof. intros H. now apply check_project_returned in H as [_ ->]. Qed.

Lemma check_project_closed_form_witness :
  check_project bare_fs
  = Returned ["Missing implementation: src/a/Foo.h";
              "Missing implementation: src/b/Bar.h";
              "Missing JuceHeader.h in: src/a/Foo.h";
              "Missing JuceHeader.h in: src/b/Bar.h"] /\
  ["Missing implementation: src/a/Foo.h";
   "Missing implementation: src/b/Bar.h";
   "Missing JuceHeader.h in: src/a/Foo.h";
   "Missing JuceHeader.h in: src/b/Bar.h"]
  = (map missing_implementation ["src/a/Foo.h"; "src/b/Bar.h"]
     ++ map missing_include ["src/a/Foo.h"; "src/b/Bar.h"])%list.
Proof.
  split; [reflexivity|].
  apply (check_project_closed_form bare_fs). reflexivity.
Defined.

(** X4: a run reports nothing it did not find: every returned issue is the
    missing-implementation text of an enumerated header whose derived path
    does not exist, or the missing-include text of an enumerated header that
    was read and lacks the include. *)
Theorem every_issue_has_a_cause (fs : filesystem) (issues : list string) (issue : string) :
  check_project fs = Returned issues ->
  In issue issues ->
  exists header,
    In header (glob fs headers_pattern) /\
    ((issue = missing_implementation header /\
      path_exists fs (cpp_file header) = false)
     \/
     (issue = missing_include header /\
      exists content,
        read_text fs header = Returned content /\
        Str.contains juce_include content = false)).
Proof.
  intros Hrun Hin. apply check_project_returned in Hrun as [_ ->].
  apply in_app_or in Hin as [Hin|Hin];
    apply in_map_iff in Hin as (h & <- & Hh); apply filter_In in Hh as [Hh Hc];
    exists h; (split; [exact Hh|]).
  - left. split; [reflexivity | now apply negb_true_iff].
  - right. split; [reflexivity|]. unfold lacks_include in Hc.
    destruct (read_text fs h) as [content|]; [|discriminate].
    exists content. split; [reflexivity | now apply negb_true_iff].
Qed.

Lemma every_issue_has_a_cause_witness :
  check_project sample_fs
  = Returned ["Missing implementation: src/b/Bar.h";
              "Missing JuceHeader.h in: src/b/Bar.h"] /\
  exists header,
    In header (glob sample_fs headers_pattern) /\
    (("Missing JuceHeader.h in: src/b/Bar.h" = missing_implementation header /\
      path_exists sample_fs (cpp_file header) = false)
     \/
     ("Missing JuceHeader.h in: src/b/Bar.h" = missing_include header /\
      exists content,
        read_text sample_fs header = Returned content /\
        Str.contains juce_include content = false)).
Proof.
  split; [reflexivity|].
  apply (every_issue_has_a_cause sample_fs
           ["Missing implementation: src/b/Bar.h";
            "Missing JuceHeader.h in: src/b/Bar.h"]); [reflexivity|].
  right; left; reflexivity.
Defined.

(** X5: a run returns the empty sequence exactly when every enumerated
    header has its derived path on disk, can be read and contains the
    include. *)
Theorem no_issues_iff_clean (fs : filesystem) :
  check_project fs = Returned [] <->
  Forall (fun h =>
            path_exists fs (cpp_file h) = true /\
            exists content,
              read_text fs h = Returned content /\
              Str.contains juce_include content = true)
         (glob fs headers_pattern).
Proof.
  rewrite Forall_forall. split.
  - intros Hrun h Hin. apply check_project_returned in Hrun as [Hok Hnil].
    symmetry in Hnil. apply app_eq_nil in Hnil as [H1 H2].
    apply map_eq_nil in H1, H2.
    pose proof (proj1 (filter_empty_iff _ _) H1 h Hin) as K1.
    pose proof (proj1 (filter_empty_iff _ _) H2 h Hin) as K2.
    apply first_failure_none in Hok. rewrite Forall_forall in Hok.
    destruct (Hok h Hin) as [content Hc].
    split; [now apply negb_false_iff in K1|].
    exists content. split; [exact Hc|].
    unfold lacks_include in K2. rewrite Hc in K2. now apply negb_false_iff in K2.
  - intros H. rewrite check_project_eq.
    assert (Hok : first_failure fs (glob fs headers_pattern) = None).
    { apply first_failure_none, Forall_forall. intros h Hin.
      destruct (H h Hin) as [_ [content [Hc _]]]. now exists content. }
    rewrite Hok. f_equal.
    assert (H1 : implementation_issues fs (glob fs headers_pattern) = []).
    { unfold implementation_issues.
      rewrite (proj2 (filter_empty_iff _ _)); [reflexivity|].
      intros h Hin. destruct (H h Hin) as [Hx _]. now rewrite Hx. }
    assert (H2 : include_issues fs (glob fs headers_pattern) = []).
    { unfold include_issues.
      rewrite (proj2 (filter_empty_iff _ _)); [reflexivity|].
      intros h Hin. destruct (H h Hin) as [_ [content [Hc Hi]]].
      unfold lacks_include. now rewrite Hc, Hi. }
    now rewrite H1, H2.
Qed.


(** ** Occurrences, in the derived path and in the text of a header *)

Section Occurrences.

Lemma contains_unfold (needle s : string) :
  Str.contains needle s
  = (prefix needle s
     || match s with
        | EmptyString => false
        | String _ rest => Str.contains needle rest
        end)%bool.
Proof. now destruct s. Qed.

Lemma contains_iff (needle s : string) :
  Str.contains needle s = true <-> exists a b, s = a ++ needle ++ b.
Proof.
  split.
  - induction s as [|c s IH]; rewrite contains_unfold; intros H;
      apply orb_prop in H as [H|H].
    + apply prefix_elim in H as [t ->]. now exists "", t.
    + discriminate.
    + apply prefix_elim in H as [t ->]. now exists "", t.
    + destruct (IH H) as (a & b & ->). now exists (String c a), b.
  - intros (a & b & ->). induction a as [|c a IH]; rewrite contains_unfold.
    + cbn [append]. now rewrite prefix_append.
    + cbn [append]. rewrite IH. apply orb_true_r.
Qed.

Lemma endswith_contains (suffix s : string) :
  Str.endswith suffix s = true -> Str.contains suffix s = true.
Proof.
  intros H. apply endswith_iff in H as [pre ->].
  apply contains_iff. exists pre, "". now rewrite append_nil_r.
Qed.

Lemma contains_after_cpp (s : string) :
  Str.contains ".h" (".cpp" ++ s) = Str.contains ".h" s.
Proof.
  cbn [append].
  rewrite (contains_unfold ".h" (String "." _)), (contains_unfold ".h" (String "c" _)),
    (contains_unfold ".h" (String "p" (String "p" _))),
    (contains_unfold ".h" (String "p" s)).
  rewrite !prefix_dot_h. reflexivity.
Qed.

Lemma cpp_file_head (s : string) :
  prefix "h" s = false -> prefix "h" (cpp_file s) = false.
Proof.
  destruct s as [|d r]; [reflexivity|]. intros H.
  destruct (prefix ".h" (String d r)) eqn:E.
  - apply prefix_elim in E as [t E]. rewrite E, cpp_file_hit. reflexivity.
  - rewrite (cpp_file_miss d r E). now rewrite (prefix_h_head d _ r).
Qed.

Lemma cpp_file_no_occurrence (s : string) :
  Str.contains ".h" (cpp_file s) = false.
Proof.
  induction s as [|rest IH|c rest Hc IH] using scan_ind.
  - reflexivity.
  - now rewrite cpp_file_hit, contains_after_cpp.
  - rewrite (cpp_file_miss c rest Hc), contains_unfold, IH, orb_false_r.
    rewrite prefix_dot_h in *. destruct (Ascii.eqb "." c); [|reflexivity].
    cbn [andb] in *. now apply cpp_file_head.
Qed.

End Occurrences.

(** X7: the derived path contains no ['.h'] at all; so it never ends in
    ['.h'], and deriving again from it changes nothing. *)
Theorem derived_path_has_no_dot_h (header : string) :
  Str.contains ".h" (cpp_file header) = false /\
  Str.endswith ".h" (cpp_file header) = false /\
  cpp_file (cpp_file header) = cpp_file header.
Proof.
  pose proof (cpp_file_no_occurrence header) as H.
  split; [exact H|]. split.
  - destruct (Str.endswith ".h" (cpp_file header)) eqn:E; [|reflexivity].
    apply endswith_contains in E. congruence.
  - now apply cpp_file_without_dot_h.
Qed.

(** X8: the include test is a test for a substring of the whole text: no
    missing-include issue is returned for an enumerated header exactly when
    its text is some text, then [#include <JuceHeader.h>], then some text,
    wherever the include stands in a line. *)
Theorem include_anywhere_in_text
  (fs : filesystem) (issues : list string) (header content : string) :
  check_project fs = Returned issues ->
  In header (glob fs headers_pattern) ->
  read_text fs header = Returned content ->
  (~ In (missing_include header) issues <->
   exists before after, content = before ++ juce_include ++ after).
Proof.
  intros Hrun Hin Hc. apply check_project_returned in Hrun as [_ ->].
  rewrite <- contains_iff, in_app_iff, in_include_issues.
  unfold lacks_include. rewrite Hc. split.
  - intros H. destruct (Str.contains juce_include content); [reflexivity|].
    elim H. right. now split.
  - intros H [K|[_ K]].
    + apply in_map_iff in K as (x & E & _).
      apply (f_equal is_missing_include) in E.
      rewrite include_is_include, implementation_not_include in E. discriminate.
    + rewrite H in K. discriminate.
Qed.

Lemma include_anywhere_in_text_witness :
  check_project sample_fs
  = Returned ["Missing implementation: src/b/Bar.h";
              "Missing JuceHeader.h in: src/b/Bar.h"] /\
  read_text sample_fs "src/a/Foo.h" = Returned text_with_include /\
  (~ In (missing_include "src/a/Foo.h")
        ["Missing implementation: src/b/Bar.h";
         "Missing JuceHeader.h in: src/b/Bar.h"] <->
   exists before after, text_with_include = before ++ juce_include ++ after).
Proof.
  split; [reflexivity|]. split; [reflexivity|].
  apply (include_anywhere_in_text sample_fs); [reflexivity | | reflexivity].
  left; reflexivity.
Defined.

(** X9: for an enumerated header whose path contains no ['.h'] (a match of
    a glob that ignores case), the derived path is the header itself: a
    missing-implementation issue is returned for it exactly when the header
    itself does not exist. *)
Theorem header_without_dot_h_tests_itself
  (fs : filesystem) (issues : list string) (header : string) :
  check_project fs = Returned issues ->
  In header (glob fs headers_pattern) ->
  Str.contains ".h" header = false ->
  (In (missing_implementation header) issues <-> path_exists fs header = false).
Proof.
  intros Hrun Hin Hno. apply check_project_returned in Hrun as [_ ->].
  rewrite in_app_iff, in_implementation_issues, (cpp_file_without_dot_h header Hno).
  split.
  - intros [[_ H]|H]; [exact H|exfalso].
    apply in_map_iff in H as (x & E & _).
    apply (f_equal is_missing_include) in E.
    rewrite include_is_include, implementation_not_include in E. discriminate.
  - intros H. left. now split.
Qed.

Lemma header_without_dot_h_tests_itself_witness :
  check_project upper_fs = Returned [] /\
  path_exists upper_fs "src/a/FOO.cpp" = false /\
  (In (missing_implementation "src/a/FOO.H") [] <->
   path_exists upper_fs "src/a/FOO.H" = false).
Proof.
  split; [reflexivity|]. split; [reflexivity|].
  apply (header_without_dot_h_tests_itself upper_fs); [reflexivity | | reflexivity].
  left; reflexivity.
Defined.

(** ** The result as a collection *)

Section Collections.

Lemma NoDup_map_filter {A B : Type} (f : A -> B) (keep : A -> bool) (l : list A) :
  (forall x y, f x = f y -> x = y) -> NoDup l -> NoDup (map f (filter keep l)).
Proof.
  intros Hinj Hl. apply NoDup_map_NoDup_ForallPairs.
  - intros x y _ _. apply Hinj.
  - now apply NoDup_filter.
Qed.

Lemma filter_weaker {A : Type} (f g : A -> bool) (l : list A) :
  (forall x, In x l -> f x = true -> g x = true) ->
  incl (filter f l) (filter g l) /\ length (filter f l) <= length (filter g l).
Proof.
  intros H. split.
  - intros x Hx. apply filter_In in Hx as [Hin Hf]. apply filter_In. auto.
  - induction l as [|a l IH]; [reflexivity|]. cbn [filter].
    assert (IH' : length (filter f l) <= length (filter g l))
      by (apply IH; intros x Hx; apply H; now right).
    destruct (f a) eqn:Ef.
    + rewrite (H a (or_introl eq_refl) Ef). cbn [length]. lia.
    + destruct (g a); cbn [length]; lia.
Qed.

End Collections.

(** X10: when the glob enumerates no header twice, the returned sequence
    holds no issue twice. *)
Theorem no_issue_twice (fs : filesystem) (issues : list string) :
  NoDup (glob fs headers_pattern) ->
  check_project fs = Returned issues ->
  NoDup issues.
Proof.
  intros Hnd Hrun. apply check_project_returned in Hrun as [_ ->].
  apply NoDup_app.
  - now apply NoDup_map_filter; [apply missing_implementation_inj|].
  - now apply NoDup_map_filter; [apply missing_include_inj|].
  - intros i H1 H2.
    pose proof (implementation_issues_kind fs (glob fs headers_pattern)) as K1.
    pose proof (include_issues_kind fs (glob fs headers_pattern)) as K2.
    rewrite Forall_forall in K1, K2.
    specialize (K2 i H2). rewrite (kinds_disjoint i (K1 i H1)) in K2. discriminate.
Qed.

Lemma no_issue_twice_witness :
  NoDup (glob bare_fs headers_pattern) /\
  NoDup ["Missing implementation: src/a/Foo.h";
         "Missing implementation: src/b/Bar.h";
         "Missing JuceHeader.h in: src/a/Foo.h";
         "Missing JuceHeader.h in: src/b/Bar.h"].
Proof.
  assert (H : NoDup (glob bare_fs headers_pattern)).
  { repeat constructor; cbn; intuition discriminate. }
  split; [exact H|].
  apply (no_issue_twice bare_fs); [exact H | reflexivity].
Defined.

(** X11: the order of the enumeration decides the order of the issues and
    nothing else.  When a second tree enumerates the same headers in another
    order, with the same existence of the derived paths and the same reads,
    and the run on the first returns, the run on the second returns too, and
    its issues are those of the first in another order. *)
Theorem enumeration_order_permutes_issues
  (fs1 fs2 : filesystem) (issues1 : list string) :
  Permutation (glob fs1 headers_pattern) (glob fs2 headers_pattern) ->
  (forall h, In h (glob fs1 headers_pattern) ->
     path_exists fs1 (cpp_file h) = path_exists fs2 (cpp_file h)) ->
  (forall h, In h (glob fs1 headers_pattern) -> read_text fs1 h = read_text fs2 h) ->
  check_project fs1 = Returned issues1 ->
  exists issues2,
    check_project fs2 = Returned issues2 /\ Permutation issues1 issues2.
Proof.
  intros Hperm Hexists Hread Hrun.
  apply check_project_returned in Hrun as [Hok ->].
  assert (Hexists' : forall h, In h (glob fs2 headers_pattern) ->
            path_exists fs1 (cpp_file h) = path_exists fs2 (cpp_file h)).
  { intros h Hh. apply Hexists. now apply (Permutation_in h (Permutation_sym Hperm)). }
  assert (Hread' : forall h, In h (glob fs2 headers_pattern) ->
            read_text fs1 h = read_text fs2 h).
  { intros h Hh. apply Hread. now apply (Permutation_in h (Permutation_sym Hperm)). }
  assert (Hok2 : first_failure fs2 (glob fs2 headers_pattern) = None).
  { rewrite <- (first_failure_ext fs1 fs2 _ Hread').
    apply first_failure_none. apply first_failure_none in Hok.
    rewrite Forall_forall in *. intros h Hh. apply Hok.
    now apply (Permutation_in h (Permutation_sym Hperm)). }
  eexists. split.
  - rewrite check_project_eq, Hok2. reflexivity.
  - rewrite <- (implementation_issues_ext fs1 fs2 _ Hexists').
    rewrite <- (include_issues_ext fs1 fs2 _ Hread').
    apply Permutation_app; apply Permutation_map, Permutation_filter; exact Hperm.
Qed.

Lemma enumeration_order_permutes_issues_witness :
  check_project bare_fs
  = Returned ["Missing implementation: src/a/Foo.h";
              "Missing implementation: src/b/Bar.h";
              "Missing JuceHeader.h in: src/a/Foo.h";
              "Missing JuceHeader.h in: src/b/Bar.h"] /\
  check_project bare_fs_reversed
  = Returned ["Missing implementation: src/b/Bar.h";
              "Missing implementation: src/a/Foo.h";
              "Missing JuceHeader.h in: src/b/Bar.h";
              "Missing JuceHeader.h in: src/a/Foo.h"] /\
  exists issues2,
    check_project bare_fs_reversed = Returned issues2 /\
    Permutation ["Missing implementation: src/a/Foo.h";
                 "Missing implementation: src/b/Bar.h";
                 "Missing JuceHeader.h in: src/a/Foo.h";
                 "Missing JuceHeader.h in: src/b/Bar.h"] issues2.
Proof.
  split; [reflexivity|]. split; [reflexivity|].
  apply (enumeration_order_permutes_issues bare_fs bare_fs_reversed).
  - apply perm_swap.
  - intros h _. reflexivity.
  - intros h _. reflexivity.
  - reflexivity.
Defined.

(** X12: on a standard output that takes the writes, when no enumerated
    header has a line feed in its path, the text the entry point writes has
    exactly as many line feeds as the check returned issues. *)
Theorem output_has_one_line_per_issue
  (dev : stdout_device) (fs : filesystem) (issues : list string) :
  (forall so_far issue, In issue issues -> dev so_far (report_prefix ++ issue) = None) ->
  (forall so_far, dev so_far (String "010"%char "") = None) ->
  forallb (fun h => Nat.eqb (count_newlines h) 0) (glob fs headers_pattern) = true ->
  check_project fs = Returned issues ->
  count_newlines (fst (main dev fs)) = length issues.
Proof.
  intros Hline Hend Hpaths Hrun. rewrite main_eq, Hrun.
  rewrite (print_loop_accepted dev issues "" Hline Hend). cbn [fst append].
  apply count_newlines_lines.
  apply check_project_returned in Hrun as [_ ->].
  now apply issues_without_newline.
Qed.

Lemma output_has_one_line_per_issue_witness :
  forallb (fun h => Nat.eqb (count_newlines h) 0) (glob bare_fs headers_pattern) = true /\
  count_newlines (fst (main utf8_stdout bare_fs)) = 4.
Proof.
  split; [reflexivity|].
  apply (output_has_one_line_per_issue utf8_stdout bare_fs
           ["Missing implementation: src/a/Foo.h";
            "Missing implementation: src/b/Bar.h";
            "Missing JuceHeader.h in: src/a/Foo.h";
            "Missing JuceHeader.h in: src/b/Bar.h"]); reflexivity.
Defined.

(** X13: adding files to a tree never adds an issue.  When a second tree
    enumerates the same headers, reads them the same, and has every derived
    path that the first has, a run that returns on the first returns on the
    second, and every issue of the second is an issue of the first. *)
Theorem more_files_fewer_issues
  (fs1 fs2 : filesystem) (issues1 : list string) :
  glob fs1 headers_pattern = glob fs2 headers_pattern ->
  (forall h, In h (glob fs1 headers_pattern) -> read_text fs1 h = read_text fs2 h) ->
  (forall h, In h (glob fs1 headers_pattern) ->
     path_exists fs1 (cpp_file h) = true -> path_exists fs2 (cpp_file h) = true) ->
  check_project fs1 = Returned issues1 ->
  exists issues2,
    check_project fs2 = Returned issues2 /\
    incl issues2 issues1 /\
    length issues2 <= length issues1.
Proof.
  intros Hglob Hread Hmore Hrun.
  apply check_project_returned in Hrun as [Hok ->].
  rewrite check_project_eq, <- Hglob.
  rewrite <- (first_failure_ext fs1 fs2 _ Hread), Hok.
  rewrite <- (include_issues_ext fs1 fs2 _ Hread).
  eexists. split; [reflexivity|].
  destruct (filter_weaker
              (fun header => negb (path_exists fs2 (cpp_file header)))
              (fun header => negb (path_exists fs1 (cpp_file header)))
              (glob fs1 headers_pattern)) as [Hincl Hlen].
  { intros h Hh H2. apply negb_true_iff in H2. apply negb_true_iff.
    destruct (path_exists fs1 (cpp_file h)) eqn:E; [|reflexivity].
    rewrite (Hmore h Hh E) in H2. discriminate. }
  split.
  - apply incl_app; [apply incl_appl | apply incl_appr, incl_refl].
    unfold implementation_issues. now apply incl_map.
  - rewrite !length_app. unfold implementation_issues. rewrite !length_map. lia.
Qed.

Lemma more_files_fewer_issues_witness :
  check_project sample_fs
  = Returned ["Missing implementation: src/b/Bar.h";
              "Missing JuceHeader.h in: src/b/Bar.h"] /\
  check_project sample_fs_with_cpp = Returned ["Missing JuceHeader.h in: src/b/Bar.h"] /\
  exists issues2,
    check_project sample_fs_with_cpp = Returned issues2 /\
    incl issues2 ["Missing implementation: src/b/Bar.h";
                  "Missing JuceHeader.h in: src/b/Bar.h"] /\
    length issues2 <= 2.
Proof.
  split; [reflexivity|]. split; [reflexivity|].
  apply (more_files_fewer_issues sample_fs sample_fs_with_cpp).
  - reflexivity.
  - intros h _. reflexivity.
  - intros h [<-|[<-|[]]]; cbn; intros H; try reflexivity; discriminate.
  - reflexivity.
Defined.

(** X14: for a header path whose only ['.h'] is its extension, the derived
    path is the same path with the extension ['.cpp']; on such a path
    replacing every occurrence and replacing the first one give the same. *)
Theorem plain_header_changes_extension (stem : string) :
  Str.contains ".h" stem = false ->
  cpp_file (stem ++ ".h") = stem ++ ".cpp" /\
  cpp_file (stem ++ ".h") = Str.replace_first ".h" ".cpp" (stem ++ ".h").
Proof.
  intros H. split.
  - now rewrite cpp_file_suffix, (cpp_file_without_dot_h stem H).
  - apply (cpp_file_single_occurrence stem "" H). reflexivity.
Qed.

Lemma plain_header_changes_extension_witness :
  Str.contains ".h" "src/a/Foo" = false /\
  cpp_file "src/a/Foo.h" = "src/a/Foo.cpp".
Proof.
  split; [reflexivity|].
  apply (plain_header_changes_extension "src/a/Foo"). reflexivity.
Defined.


